(** * golang-wheaterbycep: the weather-by-CEP service of [main.go]

    A shallow embedding of [main.go]: the postal-code validator and
    normaliser, the two resolvers that call ViaCEP and wttr.in, and the
    HTTP handler that chains them.

    - Go strings are byte strings: [string] of [ascii] bytes.
    - [float64] is Rocq's primitive binary64 [float].
    - Outbound HTTP is an explicit effect: a resolver is a [prog] that
      issues [Get] requests, and [run] interprets it against a network
      oracle while recording the URLs requested.
    - [strconv.ParseFloat] belongs to Go's library and is a parameter of
      the resolvers; [encoding/json] is modelled on JSON documents rather
      than on bytes, a body that is not JSON being [Bytes None].
    - Logging ([log.Printf], [fmt.Printf]) has no effect on results and is
      left out. *)

From Stdlib Require Import ZArith Ascii String.
From Stdlib Require Import Floats.PrimFloat.
From stdpp Require Import base option list strings gmap.

Local Open Scope string_scope.
Local Open Scope list_scope.

(** ** Go library functions used by [main.go] *)

Module strings.

(** [strings.ReplaceAll(s, old, new)] for a one-byte [old], which is how
    every call of [main.go] uses it: each occurrence of the byte is replaced
    by [new], left to right. *)
Fixpoint ReplaceAll (s : string) (old : ascii) (new : string) : string :=
  match s with
  | EmptyString => EmptyString
  | String c s' =>
      if Ascii.eqb c old then new +:+ ReplaceAll s' old new
      else String c (ReplaceAll s' old new)
  end.

(** [strings.HasPrefix(s, prefix)]. *)
Definition HasPrefix (s prefix : string) : bool := String.prefix prefix s.

(** [strings.TrimPrefix(s, prefix)]: [s] without the leading [prefix], or
    [s] itself when it does not start with it. *)
Definition TrimPrefix (s prefix : string) : string :=
  if HasPrefix s prefix
  then String.substring (String.length prefix)
         (String.length s - String.length prefix) s
  else s.

End strings.

Module regexp.

(** The fragment of RE2 syntax that the pattern of [isValidCEP] uses. *)
Inductive regex : Type :=
| BeginText                     (* ^  (no multi-line flag) *)
| EndText                       (* $  (no multi-line flag) *)
| Digit                         (* \d, the ASCII class [0-9] *)
| Cat (r1 r2 : regex)
| Repeat (n : nat) (r : regex). (* r{n} *)

Definition is_digit (c : ascii) : bool :=
  let n := nat_of_ascii c in (48 <=? n)%nat && (n <=? 57)%nat.

(** A position in the text: whether it is the beginning of the text, and
    what is left to read. *)
Definition pos : Type := bool * string.

Fixpoint iter_pos (n : nat) (f : pos -> list pos) (p : pos) : list pos :=
  match n with
  | O => [p]
  | S n' => flat_map (iter_pos n' f) (f p)
  end.

(** All the positions at which a match of [r] that starts at [p] can end. *)
Fixpoint match_from (r : regex) (p : pos) : list pos :=
  match r with
  | BeginText => if p.1 then [p] else []
  | EndText => match p.2 with EmptyString => [p] | _ => [] end
  | Digit =>
      match p.2 with
      | String c s' => if is_digit c then [(false, s')] else []
      | EmptyString => []
      end
  | Cat r1 r2 => flat_map (match_from r2) (match_from r1 p)
  | Repeat n r' => iter_pos n (match_from r') p
  end.

Definition matches_here (r : regex) (p : pos) : bool :=
  match match_from r p with [] => false | _ :: _ => true end.

(** The unanchored search: a match may start at any offset. *)
Fixpoint search (r : regex) (at_start : bool) (s : string) : bool :=
  matches_here r (at_start, s) ||
  match s with
  | EmptyString => false
  | String _ s' => search r false s'
  end.

(** [regexp.MatchString(pattern, s)] on a compiled pattern. *)
Definition MatchString (r : regex) (s : string) : bool := search r true s.

End regexp.

(** ** The postal-code validator and normaliser *)

(** The pattern [^\d{8}$]; it compiles, so the error that [isValidCEP]
    drops is always nil. *)
Definition cep_pattern : regexp.regex :=
  regexp.Cat regexp.BeginText
    (regexp.Cat (regexp.Repeat 8 regexp.Digit) regexp.EndText).

Definition isValidCEP (cep : string) : bool :=
  let cep := strings.ReplaceAll cep "-" "" in
  let cep := strings.ReplaceAll cep " " "" in
  if negb (String.length cep =? 8)%nat then false
  else regexp.MatchString cep_pattern cep.

Definition formatCEP (cep : string) : string :=
  let cep := strings.ReplaceAll cep "-" "" in
  let cep := strings.ReplaceAll cep " " "" in
  cep.

(** The validator as the specification words it: drop every hyphen and
    space, then ask for exactly eight ASCII digits. *)
Fixpoint strip_separators (s : string) : string :=
  match s with
  | EmptyString => EmptyString
  | String c s' =>
      if Ascii.eqb c "-" || Ascii.eqb c " " then strip_separators s'
      else String c (strip_separators s')
  end.

Fixpoint all_digits (s : string) : bool :=
  match s with
  | EmptyString => true
  | String c s' => regexp.is_digit c && all_digits s'
  end.

Definition eight_digits (s : string) : bool :=
  (String.length s =? 8)%nat && all_digits s.

(** ** JSON documents and [encoding/json] decoding *)

(** A JSON document as [encoding/json] scans it. A number keeps its literal:
    whether it fits a [float64] is decided only where it is stored. An
    object keeps its members in document order, repeated names included. *)
#[warnings="-register-all"]
Inductive json : Type :=
| JNull
| JBool (b : bool)
| JNumber (lit : string)
| JString (s : string)
| JArray (elems : list json)
| JObject (members : list (string * json)).

(** The values the decoder stores in an [interface{}]: [nil], [bool],
    [float64], [string], [[]interface{}] and [map[string]interface{}]
    (the map as its members in document order). *)
#[warnings="-register-all"]
Inductive any : Type :=
| Nil
| Bool (b : bool)
| Float64 (f : float)
| Str (s : string)
| Slice (elems : list any)
| Map (members : list (string * any)).

Definition is_nil (v : any) : bool :=
  match v with Nil => true | _ => false end.

(** Truthiness of a sentinel value as the specification speaks of it:
    [nil], [false], zero and the empty string are falsy. *)
Definition truthy (v : any) : bool :=
  match v with
  | Nil => false
  | Bool b => b
  | Float64 f => negb (f =? 0)%float
  | Str s => negb (String.eqb s "")
  | Slice _ | Map _ => true
  end.

(** The decoder's folding of member names: ASCII letters to upper case,
    and the two letters outside ASCII whose fold is an ASCII letter
    (U+017F to S, U+212A to K). A member sets a struct field when their
    folded names are equal. *)
Fixpoint foldName (s : string) : string :=
  match s with
  | EmptyString => EmptyString
  | String c s' =>
      let n := nat_of_ascii c in
      if (97 <=? n)%nat && (n <=? 122)%nat
      then String (ascii_of_nat (n - 32)) (foldName s')
      else
        match n, s' with
        | 197, String c1 s1 =>
            if (nat_of_ascii c1 =? 191)%nat then String "S" (foldName s1)
            else String c (foldName s')
        | 226, String c1 (String c2 s2 as s1) =>
            if (nat_of_ascii c1 =? 132)%nat && (nat_of_ascii c2 =? 170)%nat
            then String "K" (foldName s2)
            else String c (foldName s')
        | _, _ => String c (foldName s')
        end
  end.

Definition names (key field : string) : bool :=
  String.eqb (foldName key) (foldName field).

(** A JSON value stored in a [string] field: a string is stored, [null]
    leaves the field as it is, anything else is a type error. *)
Definition string_field (v : json) (old : string) : option string :=
  match v with
  | JString s => Some s
  | JNull => Some old
  | _ => None
  end.

Record CEPData : Type := {
  CEP : string;
  Logradouro : string;
  Complemento : string;
  Bairro : string;
  Localidade : string;
  UF : string;
  IBGE : string;
  GIA : string;
  DDD : string;
  SIAFI : string;
  Erro : any
}.

Definition CEPData_zero : CEPData :=
  Build_CEPData "" "" "" "" "" "" "" "" "" "" Nil.

Record WeatherData : Type := {
  TempC : float;
  TempF : float;
  TempK : float
}.

Record ErrorResponse : Type := { Message : string }.

Record CustomError : Type := { Code : Z; ErrMessage : string }.

(** The anonymous struct that [getWeatherData] decodes wttr.in's answer
    into. *)
Record condition : Type := { cond_TempC : string }.
Record wttrResponse : Type := { CurrentCondition : list condition }.

Module json_decode.
Section Decode.

(** [strconv.ParseFloat(s, 64)], with [None] for its error. It belongs to
    Go's library, not to this repository: the development is
    parametric in it. *)
Variable ParseFloat : string -> option float.

(** A JSON value decoded into an [interface{}]. Only a number that does
    not fit a [float64] makes it fail. *)
Fixpoint valueInterface (j : json) : option any :=
  match j with
  | JNull => Some Nil
  | JBool b => Some (Bool b)
  | JNumber lit => Float64 <$> ParseFloat lit
  | JString s => Some (Str s)
  | JArray l =>
      Slice <$>
        (fix go (l : list json) : option (list any) :=
           match l with
           | [] => Some []
           | x :: l' =>
               y ← valueInterface x; ys ← go l'; Some (y :: ys)
           end) l
  | JObject m =>
      Map <$>
        (fix go (m : list (string * json)) : option (list (string * any)) :=
           match m with
           | [] => Some []
           | kv :: m' =>
               y ← valueInterface kv.2; ys ← go m'; Some ((kv.1, y) :: ys)
           end) m
  end.

(** One member of the object stored into a [CEPData]; a member whose
    name matches no field is skipped. *)
Definition CEPData_member (d : CEPData) (kv : string * json)
  : option CEPData :=
  let '(k, v) := kv in
  let '(Build_CEPData cep logr compl bai loc uf ibge gia ddd siafi erro) := d in
  if names k "cep" then
    s ← string_field v cep;
    Some (Build_CEPData s logr compl bai loc uf ibge gia ddd siafi erro)
  else if names k "logradouro" then
    s ← string_field v logr;
    Some (Build_CEPData cep s compl bai loc uf ibge gia ddd siafi erro)
  else if names k "complemento" then
    s ← string_field v compl;
    Some (Build_CEPData cep logr s bai loc uf ibge gia ddd siafi erro)
  else if names k "bairro" then
    s ← string_field v bai;
    Some (Build_CEPData cep logr compl s loc uf ibge gia ddd siafi erro)
  else if names k "localidade" then
    s ← string_field v loc;
    Some (Build_CEPData cep logr compl bai s uf ibge gia ddd siafi erro)
  else if names k "uf" then
    s ← string_field v uf;
    Some (Build_CEPData cep logr compl bai loc s ibge gia ddd siafi erro)
  else if names k "ibge" then
    s ← string_field v ibge;
    Some (Build_CEPData cep logr compl bai loc uf s gia ddd siafi erro)
  else if names k "gia" then
    s ← string_field v gia;
    Some (Build_CEPData cep logr compl bai loc uf ibge s ddd siafi erro)
  else if names k "ddd" then
    s ← string_field v ddd;
    Some (Build_CEPData cep logr compl bai loc uf ibge gia s siafi erro)
  else if names k "siafi" then
    s ← string_field v siafi;
    Some (Build_CEPData cep logr compl bai loc uf ibge gia ddd s erro)
  else if names k "erro" then
    e ← valueInterface v;
    Some (Build_CEPData cep logr compl bai loc uf ibge gia ddd siafi e)
  else Some d.

(** The members of an object stored one after the other, in document
    order, so that a repeated name overwrites. *)
Fixpoint members {T : Type} (step : T -> string * json -> option T)
    (d : T) (m : list (string * json)) : option T :=
  match m with
  | [] => Some d
  | kv :: m' => d' ← step d kv; members step d' m'
  end.

(** [json.Unmarshal(body, &cepData)] on a syntactically valid document,
    [cepData] being the zero value: [null] leaves it untouched, an object
    stores its members, anything else is a type error. *)
Definition Unmarshal_CEPData (j : json) : option CEPData :=
  match j with
  | JNull => Some CEPData_zero
  | JObject m => members CEPData_member CEPData_zero m
  | _ => None
  end.

Definition condition_member (c : condition) (kv : string * json)
  : option condition :=
  if names kv.1 "temp_C" then
    s ← string_field kv.2 (cond_TempC c); Some {| cond_TempC := s |}
  else Some c.

Definition decode_condition (j : json) : option condition :=
  match j with
  | JNull => Some {| cond_TempC := "" |}
  | JObject m => members condition_member {| cond_TempC := "" |} m
  | _ => None
  end.

(** A value stored in the [current_condition] slice: [null] gives the nil
    slice; for an array, as the package documents it, the slice is reset to
    length zero and one element is appended per item. *)
Definition wttr_member (w : wttrResponse) (kv : string * json)
  : option wttrResponse :=
  if names kv.1 "current_condition" then
    match kv.2 with
    | JNull => Some {| CurrentCondition := [] |}
    | JArray l =>
        cs ← mapM decode_condition l; Some {| CurrentCondition := cs |}
    | _ => None
    end
  else Some w.

Definition Unmarshal_wttr (j : json) : option wttrResponse :=
  match j with
  | JNull => Some {| CurrentCondition := [] |}
  | JObject m => members wttr_member {| CurrentCondition := [] |} m
  | _ => None
  end.

End Decode.
End json_decode.

Module url.

(** [shouldEscape(c, encodeQueryComponent)] of [net/url]: only the
    unreserved bytes (letters, digits, [-], [_], [.], [~]) are kept. *)
Definition shouldEscape (c : ascii) : bool :=
  let n := nat_of_ascii c in
  negb (((97 <=? n)%nat && (n <=? 122)%nat)
        || ((65 <=? n)%nat && (n <=? 90)%nat)
        || ((48 <=? n)%nat && (n <=? 57)%nat)
        || Ascii.eqb c "-" || Ascii.eqb c "_"
        || Ascii.eqb c "." || Ascii.eqb c "~").

Definition upperhex (n : nat) : ascii :=
  match String.get n "0123456789ABCDEF" with
  | Some c => c
  | None => "0"%char
  end.

(** [url.QueryEscape(s)]: a space becomes [+], any other byte that must be
    escaped becomes [%XX] in upper-case hexadecimal. *)
Fixpoint QueryEscape (s : string) : string :=
  match s with
  | EmptyString => EmptyString
  | String c s' =>
      if Ascii.eqb c " " then String "+" (QueryEscape s')
      else if shouldEscape c then
        let n := nat_of_ascii c in
        String "%" (String (upperhex (n / 16))
                      (String (upperhex (n mod 16)) (QueryEscape s')))
      else String c (QueryEscape s')
  end.

End url.

(** ** Outbound HTTP as an effect *)

(** What [main.go] can observe of a response body: [io.ReadAll] fails, or it
    yields bytes that are a JSON document or are not ([None]). *)
Inductive body : Type :=
| ReadError
| Bytes (doc : option json).

(** The outcome of [httpClient.Get(url)]: a transport error, or a response
    with its status code and body. *)
Inductive GetResult : Type :=
| TransportError
| Response (StatusCode : Z) (Body : body).

(** A computation that issues GET requests and ends with a value. *)
Inductive prog (A : Type) : Type :=
| Ret (a : A)
| Get (url : string) (k : GetResult -> prog A).
Arguments Ret {A} a.
Arguments Get {A} url k.

Fixpoint bind {A B : Type} (p : prog A) (f : A -> prog B) : prog B :=
  match p with
  | Ret a => f a
  | Get u k => Get u (fun r => bind (k r) f)
  end.

(** The network: what the request for a URL yields, given the URLs
    requested before it. *)
Definition Net : Type := list string -> string -> GetResult.

(** [run net p log] runs [p] against [net] after the requests of [log] and
    returns its value with the log of all the requests issued, oldest
    first. *)
Fixpoint run {A : Type} (net : Net) (p : prog A) (log : list string)
  : A * list string :=
  match p with
  | Ret a => (a, log)
  | Get u k => run net (k (net log u)) (log ++ [u])
  end.

(** The pair [(value, *CustomError)] that the resolvers return: exactly one
    of the two is non-nil. *)
Inductive result (A : Type) : Type :=
| Ok (a : A)
| Err (e : CustomError).
Arguments Ok {A} a.
Arguments Err {A} e.

Definition StatusOK : Z := 200.
Definition StatusBadRequest : Z := 400.
Definition StatusNotFound : Z := 404.
Definition StatusMethodNotAllowed : Z := 405.
Definition MethodGet : string := "GET".

(** ** The two resolvers *)

Section Resolvers.

Variable ParseFloat : string -> option float.

(** [searchCEP] from the status check on, once a response is there. *)
Definition searchCEP_response (StatusCode : Z) (Body : body)
  : result CEPData :=
  if negb (StatusCode =? StatusOK)%Z then
    Err {| Code := 500; ErrMessage := "internal server error" |}
  else
    match Body with
    | ReadError =>
        Err {| Code := 500; ErrMessage := "internal server error" |}
    | Bytes doc =>
        match doc ≫= json_decode.Unmarshal_CEPData ParseFloat with
        | None =>
            Err {| Code := 500; ErrMessage := "internal server error" |}
        | Some cepData =>
            if negb (is_nil (Erro cepData)) then
              Err {| Code := 404; ErrMessage := "can not find zipcode" |}
            else Ok cepData
        end
    end.

Definition searchCEP (cep : string) : prog (result CEPData) :=
  if negb (isValidCEP cep) then
    Ret (Err {| Code := 422; ErrMessage := "invalid zipcode" |})
  else
    let formattedCEP := formatCEP cep in
    let url := "https://viacep.com.br/ws/" +:+ formattedCEP +:+ "/json/" in
    Get url (fun resp =>
      match resp with
      | TransportError =>
          let httpURL :=
            "http://viacep.com.br/ws/" +:+ formattedCEP +:+ "/json/" in
          Get httpURL (fun resp =>
            match resp with
            | TransportError =>
                Ret (Err {| Code := 500;
                            ErrMessage := "internal server error" |})
            | Response StatusCode Body =>
                Ret (searchCEP_response StatusCode Body)
            end)
      | Response StatusCode Body =>
          Ret (searchCEP_response StatusCode Body)
      end).

(** [getWeatherData] from the status check on. *)
#[warnings="-inexact-float"]
Definition getWeatherData_response (StatusCode : Z) (Body : body)
  : result WeatherData :=
  if negb (StatusCode =? StatusOK)%Z then
    Err {| Code := 500; ErrMessage := "internal server error" |}
  else
    match Body with
    | ReadError =>
        Err {| Code := 500; ErrMessage := "internal server error" |}
    | Bytes doc =>
        match doc ≫= json_decode.Unmarshal_wttr with
        | None =>
            Err {| Code := 500; ErrMessage := "internal server error" |}
        | Some wttrResponse =>
            match CurrentCondition wttrResponse with
            | [] =>
                Err {| Code := 500;
                       ErrMessage := "weather data not available" |}
            | first :: _ =>
                let tempCStr := cond_TempC first in
                match ParseFloat tempCStr with
                | None =>
                    Err {| Code := 500;
                           ErrMessage := "internal server error" |}
                | Some tempC =>
                    let tempF := (tempC * 9 / 5 + 32)%float in
                    let tempK := (tempC + 273.15)%float in
                    Ok {| TempC := tempC; TempF := tempF; TempK := tempK |}
                end
            end
        end
    end.

Definition weather_location (city state : string) : string :=
  let cityFormatted := strings.ReplaceAll city " " "+" in
  let stateFormatted := strings.ReplaceAll state " " "+" in
  cityFormatted +:+ "," +:+ stateFormatted +:+ ",Brazil".

Definition getWeatherData (city state : string) : prog (result WeatherData) :=
  let location := weather_location city state in
  let url := "https://wttr.in/" +:+ url.QueryEscape location +:+ "?format=j1" in
  Get url (fun resp =>
    match resp with
    | TransportError =>
        Ret (Err {| Code := 500; ErrMessage := "internal server error" |})
    | Response StatusCode Body =>
        Ret (getWeatherData_response StatusCode Body)
    end).

End Resolvers.

(** ** The HTTP handler *)

Record Request : Type := { Method : string; Path : string }.

(** What [json.NewEncoder(w).Encode] puts on the wire for the two structs
    of [main.go]: an object of string or number members. *)
Inductive jvalue : Type :=
| VString (s : string)
| VNumber (f : float).

Definition jobject : Type := list (string * jvalue).

(** The response being written: the header map, the status code once
    [WriteHeader] has been called, and the JSON texts written to the body
    so far (an empty list is an empty body). *)
Record ResponseWriter : Type := {
  Header : gmap string string;
  Status : option Z;
  Written : list jobject
}.

Definition NewRecorder : ResponseWriter :=
  {| Header := ∅; Status := None; Written := [] |}.

Definition Header_Set (key value : string) (w : ResponseWriter)
  : ResponseWriter :=
  {| Header := <[key := value]> (Header w);
     Status := Status w; Written := Written w |}.

(** [w.WriteHeader(code)]: the first call fixes the status. *)
Definition WriteHeader (code : Z) (w : ResponseWriter) : ResponseWriter :=
  match Status w with
  | Some _ => w
  | None => {| Header := Header w; Status := Some code; Written := Written w |}
  end.

(** [w.Write]: the first write fixes the status to 200 when no
    [WriteHeader] came before it. *)
Definition Write (o : jobject) (w : ResponseWriter) : ResponseWriter :=
  let w := WriteHeader StatusOK w in
  {| Header := Header w; Status := Status w; Written := Written w ++ [o] |}.

(** The encoder refuses a [float64] that is a NaN or an infinity. *)
Definition unsupported_float (f : float) : bool :=
  is_infinity f || is_nan f.

Definition marshal_ErrorResponse (e : ErrorResponse) : option jobject :=
  Some [("message", VString (Message e))].

Definition marshal_WeatherData (w : WeatherData) : option jobject :=
  if unsupported_float (TempC w) || unsupported_float (TempF w)
     || unsupported_float (TempK w)
  then None
  else Some [("temp_C", VNumber (TempC w)); ("temp_F", VNumber (TempF w));
             ("temp_K", VNumber (TempK w))].

(** [json.NewEncoder(w).Encode(v)], its error dropped as the handler drops
    it: the value is marshalled first and written only when that
    succeeded. *)
Definition Encode (marshalled : option jobject) (w : ResponseWriter)
  : ResponseWriter :=
  match marshalled with
  | Some o => Write o w
  | None => w
  end.

Section Handler.

Variable ParseFloat : string -> option float.

Definition respond_error (code : Z) (message : string) (w : ResponseWriter)
  : ResponseWriter :=
  let w := Header_Set "Content-Type" "application/json" w in
  let w := WriteHeader code w in
  Encode (marshal_ErrorResponse {| Message := message |}) w.

Definition weatherByCEPHandler (w : ResponseWriter) (r : Request)
  : prog ResponseWriter :=
  if negb (String.eqb (Method r) MethodGet) then
    Ret (respond_error StatusMethodNotAllowed "method not allowed" w)
  else
    let path := Path r in
    if negb (strings.HasPrefix path "/weatherbycep/") then
      Ret (respond_error StatusNotFound "endpoint not found" w)
    else
      let cep := strings.TrimPrefix path "/weatherbycep/" in
      if String.eqb cep "" then
        Ret (respond_error StatusBadRequest "cep parameter is required" w)
      else
        bind (searchCEP ParseFloat cep) (fun res =>
          match res with
          | Err cepErr =>
              Ret (respond_error (Code cepErr) (ErrMessage cepErr) w)
          | Ok cepData =>
              bind (getWeatherData ParseFloat (Localidade cepData) (UF cepData))
                (fun res =>
                  match res with
                  | Err weatherErr =>
                      Ret (respond_error (Code weatherErr)
                             (ErrMessage weatherErr) w)
                  | Ok weather =>
                      let w := Header_Set "Content-Type" "application/json" w in
                      let w := WriteHeader StatusOK w in
                      Ret (Encode (marshal_WeatherData weather) w)
                  end)
          end).

End Handler.

(** A response is JSON when it carries the JSON content type and its body
    is exactly one JSON object. *)
Definition json_content_type (w : ResponseWriter) : Prop :=
  Header w !! "Content-Type" = Some "application/json".

Definition is_error_body (w : ResponseWriter) : Prop :=
  ∃ msg, Written w = [[("message", VString msg)]].

Definition is_temperature_body (w : ResponseWriter) : Prop :=
  ∃ c f k, Written w = [[("temp_C", VNumber c); ("temp_F", VNumber f);
                          ("temp_K", VNumber k)]].

(** ** Definitions used to state the properties *)

(** *** The validator

    Reading [n] digits off the front of [s]: what is left, if they are
    there. *)
Fixpoint eat_digits (n : nat) (s : string) : option string :=
  match n with
  | O => Some s
  | S n' =>
      match s with
      | String c s' => if regexp.is_digit c then eat_digits n' s' else None
      | EmptyString => None
      end
  end.

(** *** The location resolver

    The two URLs [searchCEP] builds for a code. *)
Definition viacep_https (cep : string) : string :=
  "https://viacep.com.br/ws/" +:+ formatCEP cep +:+ "/json/".

Definition viacep_http (cep : string) : string :=
  "http://viacep.com.br/ws/" +:+ formatCEP cep +:+ "/json/".

(** ViaCEP's answer to [searchCEP cep], through the first request or
    through the fallback, has status 200 and the JSON document [doc] as its
    body. *)
Definition answered (net : Net) (cep : string) (log : list string)
    (doc : json) : Prop :=
  net log (viacep_https cep) = Response 200 (Bytes (Some doc))
  ∨ (net log (viacep_https cep) = TransportError
     ∧ net (log ++ [viacep_https cep]) (viacep_http cep)
       = Response 200 (Bytes (Some doc))).

Definition not_found : CustomError :=
  {| Code := 404; ErrMessage := "can not find zipcode" |}.

Definition internal_error : CustomError :=
  {| Code := 500; ErrMessage := "internal server error" |}.

(** *** The weather resolver

    RFC 3986 percent-encoding of a byte string: the unreserved bytes stand
    for themselves, every other byte is written [%XX]. *)
Definition unreserved (c : ascii) : bool :=
  match String.index 0 (String c "")
          "ABCDEFGHIJKLMNOPQRSTUVWXYZabcdefghijklmnopqrstuvwxyz0123456789-._~"
  with
  | Some _ => true
  | None => false
  end.

Definition hex_digit (n : nat) : ascii :=
  ascii_of_nat (if (n <? 10)%nat then 48 + n else 55 + n).

Fixpoint percent_encode (s : string) : string :=
  match s with
  | EmptyString => EmptyString
  | String c s' =>
      if unreserved c then String c (percent_encode s')
      else
        String "%" (String (hex_digit (nat_of_ascii c / 16))
                      (String (hex_digit (nat_of_ascii c mod 16))
                         (percent_encode s')))
  end.

Fixpoint spaces_to_plus (s : string) : string :=
  match s with
  | EmptyString => EmptyString
  | String c s' =>
      String (if Ascii.eqb c " " then "+"%char else c) (spaces_to_plus s')
  end.

Fixpoint no_space (s : string) : bool :=
  match s with
  | EmptyString => true
  | String c s' => negb (Ascii.eqb c " ") && no_space s'
  end.

Definition wttr_url (city state : string) : string :=
  "https://wttr.in/"
  +:+ percent_encode (spaces_to_plus city +:+ "," +:+ spaces_to_plus state
                      +:+ ",Brazil")
  +:+ "?format=j1".

(** The codes the handler can answer with when it reports a failure. *)
Definition failure_code (code : Z) : Prop :=
  code = 400%Z ∨ code = 404%Z ∨ code = 405%Z ∨ code = 422%Z ∨ code = 500%Z.

(** *** Concrete inputs

    A fragment of [strconv.ParseFloat], enough for the runs below. *)
Definition ParseFloat_sample (s : string) : option float :=
  if String.eqb s "25" then Some 25%float
  else if String.eqb s "NaN" then Some nan
  else None.

Definition location_doc : json :=
  JObject [("cep", JString "01310-100"); ("localidade", JString "Sao Paulo");
           ("uf", JString "SP")].

Definition location_record : CEPData :=
  {| CEP := "01310-100"; Logradouro := ""; Complemento := ""; Bairro := "";
     Localidade := "Sao Paulo"; UF := "SP"; IBGE := ""; GIA := ""; DDD := "";
     SIAFI := ""; Erro := Nil |}.

Definition weather_doc (temp_C : string) : json :=
  JObject [("current_condition", JArray [JObject [("temp_C", JString temp_C)]])].

Definition no_condition_doc : json :=
  JObject [("current_condition", JArray [])].

Definition erro_false_doc : json := JObject [("erro", JBool false)].

(** A network where ViaCEP answers [location] and wttr.in answers
    [weather], both with status 200. *)
Definition sample_net (location weather : json) : Net :=
  fun _ url =>
    if String.prefix "https://viacep.com.br/" url
    then Response 200 (Bytes (Some location))
    else Response 200 (Bytes (Some weather)).

Definition unreachable_net : Net := fun _ _ => TransportError.

(** C3 as the specification states it: not-found exactly when the decoded
    sentinel is truthy. *)
Definition not_found_iff_truthy : Prop :=
  ∀ (ParseFloat : string -> option float) (net : Net) (cep : string)
    (log : list string) (doc : json) (cepData : CEPData),
    isValidCEP cep = true →
    answered net cep log doc →
    json_decode.Unmarshal_CEPData ParseFloat doc = Some cepData →
    ((run net (searchCEP ParseFloat cep) log).1 = Err not_found
     ↔ truthy (Erro cepData) = true).

(** *** Vocabulary for the further properties *)

Definition is_separator (c : ascii) : bool :=
  Ascii.eqb c "-" || Ascii.eqb c " ".

Fixpoint no_separator (s : string) : bool :=
  match s with
  | EmptyString => true
  | String c s' => negb (is_separator c) && no_separator s'
  end.

(** Every byte is a digit, a hyphen or a space. *)
Fixpoint cep_bytes_only (s : string) : bool :=
  match s with
  | EmptyString => true
  | String c s' => (regexp.is_digit c || is_separator c) && cep_bytes_only s'
  end.

Fixpoint count_digits (s : string) : nat :=
  match s with
  | EmptyString => O
  | String c s' => (if regexp.is_digit c then 1 else 0) + count_digits s'
  end.

(** Bytes that cannot change the structure of a URL: the unreserved ones
    and the percent sign of an escape. *)
Fixpoint url_safe (s : string) : bool :=
  match s with
  | EmptyString => true
  | String c s' => (unreserved c || Ascii.eqb c "%") && url_safe s'
  end.

Definition invalid_zipcode : CustomError :=
  {| Code := 422; ErrMessage := "invalid zipcode" |}.

Definition weather_unavailable : CustomError :=
  {| Code := 500; ErrMessage := "weather data not available" |}.

(** The writer [w] after a failure answer, and after a temperature
    answer. *)
Definition error_response (code : Z) (message : string) (w : ResponseWriter)
  : ResponseWriter :=
  {| Header := <["Content-Type" := "application/json"]> (Header w);
     Status := Some code;
     Written := Written w ++ [[("message", VString message)]] |}.

Definition temperature_response (t : WeatherData) (w : ResponseWriter)
  : ResponseWriter :=
  {| Header := <["Content-Type" := "application/json"]> (Header w);
     Status := Some 200%Z;
     Written := Written w
                ++ [[("temp_C", VNumber (TempC t)); ("temp_F", VNumber (TempF t));
                     ("temp_K", VNumber (TempK t))]] |}.

Definition finite_temperatures (t : WeatherData) : bool :=
  negb (unsupported_float (TempC t) || unsupported_float (TempF t)
        || unsupported_float (TempK t)).


(** A network that answers every request with the status [st] and a body
    that cannot be read. *)
Definition status_net (st : Z) : Net := fun _ _ => Response st ReadError.

Definition GET (path : string) : Request :=
  {| Method := "GET"; Path := path |}.

(** * Properties *)

(** ** The validator and the normaliser *)

Lemma ReplaceAll_strip (s : string) :
  strings.ReplaceAll (strings.ReplaceAll s "-" "") " " ""
  = strip_separators s.
Proof.
  induction s as [|c s IH]; [done|].
  cbn [strings.ReplaceAll strip_separators].
  destruct (Ascii.eqb c "-") eqn:Hh; cbn [orb].
  - exact IH.
  - cbn [strings.ReplaceAll].
    destruct (Ascii.eqb c " "); [exact IH | by rewrite IH].
Qed.

Lemma formatCEP_strip (s : string) : formatCEP s = strip_separators s.
Proof. apply ReplaceAll_strip. Qed.

Lemma strip_separators_idemp (s : string) :
  strip_separators (strip_separators s) = strip_separators s.
Proof.
  induction s as [|c s IH]; [done|].
  cbn [strip_separators].
  destruct (Ascii.eqb c "-" || Ascii.eqb c " ") eqn:Hc; [done|].
  cbn [strip_separators]. by rewrite Hc, IH.
Qed.

Lemma flat_map_singleton {A B : Type} (f : A -> list B) (x : A) :
  flat_map f [x] = f x.
Proof. cbn. apply app_nil_r. Qed.

Lemma repeat_digit (n : nat) (b : bool) (s : string) :
  regexp.iter_pos (S n) (regexp.match_from regexp.Digit) (b, s)
  = match eat_digits (S n) s with
    | Some rest => [(false, rest)]
    | None => []
    end.
Proof.
  revert b s. induction n as [|n IH]; intros b s.
  - cbn. destruct s as [|c s]; [done|].
    destruct (regexp.is_digit c); [|done]. by cbn.
  - cbn [regexp.iter_pos]. cbn [regexp.iter_pos] in IH.
    destruct s as [|c s]; [done|].
    cbn [regexp.match_from snd eat_digits].
    destruct (regexp.is_digit c); [|done].
    rewrite flat_map_singleton. apply IH.
Qed.

Lemma eat_digits_all (n : nat) (s : string) :
  match eat_digits n s with
  | Some EmptyString => true
  | _ => false
  end = (String.length s =? n)%nat && all_digits s.
Proof.
  revert s. induction n as [|n IH]; intros [|c s]; cbn; try done.
  destruct (regexp.is_digit c); cbn; [apply IH|].
  by rewrite andb_false_r.
Qed.

Lemma cep_pattern_here (s : string) :
  regexp.matches_here cep_pattern (true, s) = eight_digits s.
Proof.
  unfold eight_digits. rewrite <- eat_digits_all.
  unfold regexp.matches_here, cep_pattern.
  change (regexp.match_from _ (true, s))
    with (flat_map
            (fun p => flat_map (regexp.match_from regexp.EndText)
                        (regexp.iter_pos 8 (regexp.match_from regexp.Digit) p))
            [(true, s)]).
  rewrite flat_map_singleton, repeat_digit.
  destruct (eat_digits 8 s) as [[|c r]|]; done.
Qed.

Lemma cep_pattern_later (s : string) :
  regexp.search cep_pattern false s = false.
Proof. induction s as [|c s IH]; [done|]. cbn. exact IH. Qed.

Lemma MatchString_cep_pattern (s : string) :
  regexp.MatchString cep_pattern s = eight_digits s.
Proof.
  unfold regexp.MatchString.
  destruct s as [|c s]; cbn [regexp.search].
  - by rewrite cep_pattern_here.
  - by rewrite cep_pattern_here, cep_pattern_later, orb_false_r.
Qed.

Lemma isValidCEP_eight_digits (s : string) :
  isValidCEP s = eight_digits (strip_separators s).
Proof.
  unfold isValidCEP. rewrite ReplaceAll_strip, MatchString_cep_pattern.
  unfold eight_digits.
  by destruct (String.length (strip_separators s) =? 8)%nat.
Qed.

(** C1. [isValidCEP] accepts a string exactly when what is left of it after
    removing every hyphen and space is eight ASCII digits; it accepts
    "01310-100" and "01310 100" and rejects "123", "12.345.678" and the
    empty string. *)
Theorem isValidCEP_iff_eight_digits :
  (∀ s : string,
     isValidCEP s = true ↔
     String.length (strip_separators s) = 8%nat
     ∧ all_digits (strip_separators s) = true)
  ∧ isValidCEP "01310-100" = true
  ∧ isValidCEP "01310 100" = true
  ∧ isValidCEP "123" = false
  ∧ isValidCEP "12.345.678" = false
  ∧ isValidCEP "" = false.
Proof.
  split; [|by repeat split].
  intros s. rewrite isValidCEP_eight_digits. unfold eight_digits.
  rewrite andb_true_iff, Nat.eqb_eq. done.
Qed.

(** C7. [formatCEP] is idempotent. *)
Theorem formatCEP_idempotent (x : string) :
  formatCEP (formatCEP x) = formatCEP x.
Proof. rewrite !formatCEP_strip. apply strip_separators_idemp. Qed.

(** ** The location resolver *)

Section LocationResolver.

Variable ParseFloat : string -> option float.

Lemma searchCEP_response_not_found (st : Z) (b : body) :
  searchCEP_response ParseFloat st b = Err not_found ↔
  st = 200%Z ∧ ∃ doc cepData,
    b = Bytes (Some doc) ∧ json_decode.Unmarshal_CEPData ParseFloat doc = Some cepData
    ∧ Erro cepData ≠ Nil.
Proof.
  unfold searchCEP_response, StatusOK. split.
  - destruct (Z.eqb_spec st 200) as [->|?]; cbn [negb]; [|done].
    destruct b as [|[doc|]]; cbn; try done.
    destruct (json_decode.Unmarshal_CEPData ParseFloat doc) as [d|] eqn:Hd; [|done].
    destruct (Erro d) eqn:He; cbn; try done;
      intros _; (split; [done|]); exists doc, d; by rewrite He.
  - intros [-> (doc & d & -> & Hd & He)]. cbn. rewrite Hd.
    by destruct (Erro d).
Qed.

Lemma run_searchCEP (net : Net) (cep : string) (log : list string) :
  isValidCEP cep = true →
  run net (searchCEP ParseFloat cep) log =
  match net log (viacep_https cep) with
  | TransportError =>
      (match net (log ++ [viacep_https cep]) (viacep_http cep) with
       | TransportError => Err internal_error
       | Response st b => searchCEP_response ParseFloat st b
       end, log ++ [viacep_https cep; viacep_http cep])
  | Response st b =>
      (searchCEP_response ParseFloat st b, log ++ [viacep_https cep])
  end.
Proof.
  intros Hv. unfold searchCEP. rewrite Hv. cbn [negb run].
  fold (viacep_https cep) (viacep_http cep).
  destruct (net log (viacep_https cep)); cbn [run]; [|done].
  rewrite <- app_assoc. cbn [app].
  by destruct (net (log ++ [viacep_https cep]) (viacep_http cep)).
Qed.

(** C3, amended. [searchCEP] reports the not-found failure (404, "can not
    find zipcode") exactly when the code is valid and ViaCEP's answer
    decodes to a record whose [erro] field is not nil, that is, when the
    member is there with any value other than [null]. *)
Theorem searchCEP_not_found_iff_erro_non_nil
    (net : Net) (cep : string) (log : list string) :
  (run net (searchCEP ParseFloat cep) log).1 = Err not_found ↔
  isValidCEP cep = true
  ∧ ∃ doc cepData, answered net cep log doc
      ∧ json_decode.Unmarshal_CEPData ParseFloat doc = Some cepData ∧ Erro cepData ≠ Nil.
Proof.
  destruct (isValidCEP cep) eqn:Hv.
  - rewrite run_searchCEP by done. unfold answered.
    destruct (net log (viacep_https cep)) as [|st b] eqn:H1; cbn [fst].
    + destruct (net (log ++ [viacep_https cep]) (viacep_http cep))
        as [|st b] eqn:H2.
      * split; [done|]. intros [_ (doc & d & [?|[_ ?]] & _)]; done.
      * rewrite searchCEP_response_not_found. split.
        -- intros [-> (doc & d & -> & Hd & He)].
           split; [done|]. exists doc, d. auto.
        -- intros [_ (doc & d & [?|[_ [= -> ->]]] & Hd & He)]; [done|].
           split; [done|]. by exists doc, d.
    + rewrite searchCEP_response_not_found. split.
      * intros [-> (doc & d & -> & Hd & He)].
        split; [done|]. exists doc, d. auto.
      * intros [_ (doc & d & [[= -> ->]|[? _]] & Hd & He)]; [|done].
        split; [done|]. by exists doc, d.
  - unfold searchCEP. rewrite Hv. cbn. split; [done|]. by intros [? _].
Qed.

(** C4. After a failed HTTPS call exactly one fallback request goes out,
    to the HTTP URL; when it fails too the result is 500 "internal server
    error" and nothing more is requested; when the HTTPS call yields a
    response, whatever its status, no fallback goes out. *)
Theorem searchCEP_single_fallback
    (net : Net) (cep : string) (log : list string) :
  isValidCEP cep = true →
  let out := run net (searchCEP ParseFloat cep) log in
  match net log (viacep_https cep) with
  | TransportError =>
      out.2 = log ++ [viacep_https cep; viacep_http cep]
      ∧ match net (log ++ [viacep_https cep]) (viacep_http cep) with
        | TransportError => out.1 = Err internal_error
        | Response st b => out.1 = searchCEP_response ParseFloat st b
        end
  | Response st b =>
      out = (searchCEP_response ParseFloat st b, log ++ [viacep_https cep])
  end.
Proof.
  intros Hv out. subst out. rewrite run_searchCEP by done.
  destruct (net log (viacep_https cep)); [|done].
  split; [done|].
  by destruct (net (log ++ [viacep_https cep]) (viacep_http cep)).
Qed.

(** C10. On a string that the validator rejects, [searchCEP] returns 422
    "invalid zipcode" without issuing any request. *)
Theorem searchCEP_invalid_no_request (cep : string) :
  isValidCEP cep = false →
  searchCEP ParseFloat cep
  = Ret (Err {| Code := 422; ErrMessage := "invalid zipcode" |})
  ∧ ∀ (net : Net) (log : list string),
      run net (searchCEP ParseFloat cep) log
      = (Err {| Code := 422; ErrMessage := "invalid zipcode" |}, log).
Proof.
  intros Hv. unfold searchCEP. rewrite Hv. by cbn.
Qed.

End LocationResolver.

(** ** The weather resolver *)

Lemma ReplaceAll_spaces_to_plus (s : string) :
  strings.ReplaceAll s " " "+" = spaces_to_plus s.
Proof.
  induction s as [|c s IH]; [done|]. cbn.
  destruct (Ascii.eqb c " "); cbn; by rewrite IH.
Qed.

Lemma no_space_spaces_to_plus (s : string) : no_space (spaces_to_plus s) = true.
Proof.
  induction s as [|c s IH]; [done|]. cbn.
  destruct (Ascii.eqb c " ") eqn:Hc; cbn; [done|]. by rewrite Hc.
Qed.

Lemma no_space_app (s t : string) :
  no_space (s +:+ t) = no_space s && no_space t.
Proof.
  induction s as [|c s IH]; [done|]. simpl. by rewrite IH, andb_assoc.
Qed.

Lemma shouldEscape_unreserved (c : ascii) :
  url.shouldEscape c = negb (unreserved c).
Proof. by destruct c as [[] [] [] [] [] [] [] []]. Qed.

Lemma upperhex_hex_digit (n : nat) :
  (n < 16)%nat → url.upperhex n = hex_digit n.
Proof.
  intros Hn. do 16 (destruct n as [|n]; [done|]). lia.
Qed.

Lemma QueryEscape_percent_encode (s : string) :
  no_space s = true → url.QueryEscape s = percent_encode s.
Proof.
  induction s as [|c s IH]; [done|]. cbn [no_space url.QueryEscape percent_encode].
  intros [Hc Hs]%andb_true_iff. apply negb_true_iff in Hc. rewrite Hc.
  rewrite shouldEscape_unreserved.
  destruct (unreserved c); cbn [negb]; rewrite IH by done; [done|].
  assert (nat_of_ascii c < 256)%nat by apply nat_ascii_bounded.
  rewrite !upperhex_hex_digit; [done| |].
  - apply Nat.mod_upper_bound. lia.
  - apply Nat.Div0.div_lt_upper_bound. lia.
Qed.

Lemma weather_location_no_space (city state : string) :
  no_space (weather_location city state) = true.
Proof.
  unfold weather_location. cbv zeta. rewrite !ReplaceAll_spaces_to_plus.
  rewrite !no_space_app, !no_space_spaces_to_plus. done.
Qed.

Section WeatherResolver.

Variable ParseFloat : string -> option float.

Lemma run_getWeatherData
    (net : Net) (city state : string) (log : list string) :
  run net (getWeatherData ParseFloat city state) log =
  (match net log (wttr_url city state) with
   | TransportError => Err internal_error
   | Response st b => getWeatherData_response ParseFloat st b
   end, log ++ [wttr_url city state]).
Proof.
  unfold getWeatherData. cbv zeta. cbn [run].
  rewrite QueryEscape_percent_encode by apply weather_location_no_space.
  unfold weather_location. cbv zeta. rewrite !ReplaceAll_spaces_to_plus.
  fold (wttr_url city state).
  by destruct (net log (wttr_url city state)).
Qed.

(** C9. The weather resolver requests exactly one URL: "https://wttr.in/",
    then the percent-encoding of the city with its spaces turned into
    [+], a comma, the state with its spaces turned into [+] and
    ",Brazil", then "?format=j1". *)
Theorem getWeatherData_url
    (net : Net) (city state : string) (log : list string) :
  (run net (getWeatherData ParseFloat city state) log).2
  = log ++ ["https://wttr.in/"
            +:+ percent_encode (spaces_to_plus city +:+ ","
                                +:+ spaces_to_plus state +:+ ",Brazil")
            +:+ "?format=j1"].
Proof. by rewrite run_getWeatherData. Qed.

(** C6. When wttr.in's answer decodes and its list of current conditions
    is empty, the result is 500 "weather data not available" and no
    temperature record. *)
Theorem getWeatherData_empty_condition
    (net : Net) (city state : string) (log : list string)
    (doc : json) (wttrResponse : wttrResponse) :
  net log (wttr_url city state) = Response 200 (Bytes (Some doc)) →
  json_decode.Unmarshal_wttr doc = Some wttrResponse →
  CurrentCondition wttrResponse = [] →
  (run net (getWeatherData ParseFloat city state) log).1
  = Err {| Code := 500; ErrMessage := "weather data not available" |}.
Proof.
  intros Hnet Hdoc Hcc. rewrite run_getWeatherData, Hnet.
  unfold getWeatherData_response. cbn [fst StatusOK Z.eqb Pos.eqb negb mbind option_bind].
  by rewrite Hdoc, Hcc.
Qed.

(** C2. When the first current condition's Celsius string parses to [C],
    the record returned holds [C], [C*9/5+32] and [C+273.15], computed in
    [float64] with nothing applied on top. Being the value of a function
    of the parsed input, it is the same every time. *)
#[warnings="-inexact-float"]
Theorem getWeatherData_conversion
    (net : Net) (city state : string) (log : list string)
    (doc : json) (wttrResponse : wttrResponse)
    (first : condition) (rest : list condition) (C : float) :
  net log (wttr_url city state) = Response 200 (Bytes (Some doc)) →
  json_decode.Unmarshal_wttr doc = Some wttrResponse →
  CurrentCondition wttrResponse = first :: rest →
  ParseFloat (cond_TempC first) = Some C →
  (run net (getWeatherData ParseFloat city state) log).1
  = Ok {| TempC := C;
          TempF := (C * 9 / 5 + 32)%float;
          TempK := (C + 273.15)%float |}.
Proof.
  intros Hnet Hdoc Hcc HC. rewrite run_getWeatherData, Hnet.
  unfold getWeatherData_response. cbn [fst StatusOK Z.eqb Pos.eqb negb mbind option_bind].
  by rewrite Hdoc, Hcc, HC.
Qed.

End WeatherResolver.

(** ** The handler *)

Lemma run_bind {A B : Type} (net : Net) (p : prog A) (f : A -> prog B)
    (log : list string) :
  run net (bind p f) log
  = run net (f (run net p log).1) (run net p log).2.
Proof.
  revert log. induction p as [a|u k IH]; intros log; [done|].
  cbn [bind run]. apply IH.
Qed.

Lemma respond_error_fresh (code : Z) (message : string) (w : ResponseWriter) :
  Status w = None →
  respond_error code message w
  = {| Header := <["Content-Type" := "application/json"]> (Header w);
       Status := Some code;
       Written := Written w ++ [[("message", VString message)]] |}.
Proof.
  intros Hw. unfold respond_error, Encode, marshal_ErrorResponse, Write.
  unfold WriteHeader, Header_Set. cbn. by rewrite Hw.
Qed.

Lemma HasPrefix_app (p s : string) : strings.HasPrefix (p +:+ s) p = true.
Proof.
  unfold strings.HasPrefix. induction p as [|c p IH]; [by destruct s|].
  simpl. by destruct (ascii_dec c c).
Qed.

Lemma substring_all (s : string) : String.substring 0 (String.length s) s = s.
Proof. induction s as [|c s IH]; [done|]. simpl. by rewrite IH. Qed.

Lemma TrimPrefix_app (p s : string) : strings.TrimPrefix (p +:+ s) p = s.
Proof.
  unfold strings.TrimPrefix. rewrite HasPrefix_app.
  induction p as [|c p IH]; simpl.
  - rewrite Nat.sub_0_r. apply substring_all.
  - exact IH.
Qed.

Section HandlerProperties.

Variable ParseFloat : string -> option float.

Lemma searchCEP_response_code (st : Z) (b : body) (e : CustomError) :
  searchCEP_response ParseFloat st b = Err e →
  Code e = 404%Z ∨ Code e = 500%Z.
Proof.
  unfold searchCEP_response.
  destruct (negb (st =? StatusOK)%Z); [intros [= <-]; auto|].
  destruct b as [|doc]; [intros [= <-]; auto|].
  destruct (doc ≫= _) as [d|]; [|intros [= <-]; auto].
  destruct (negb (is_nil (Erro d))); [intros [= <-]; auto|done].
Qed.

Lemma searchCEP_code (net : Net) (cep : string) (log : list string)
    (e : CustomError) :
  (run net (searchCEP ParseFloat cep) log).1 = Err e →
  Code e = 404%Z ∨ Code e = 422%Z ∨ Code e = 500%Z.
Proof.
  destruct (isValidCEP cep) eqn:Hv.
  - rewrite run_searchCEP by done.
    destruct (net log (viacep_https cep)) as [|st b]; cbn [fst].
    + destruct (net _ (viacep_http cep)) as [|st b]; [intros [= <-]; auto|].
      intros [?|?]%searchCEP_response_code; auto.
    + intros [?|?]%searchCEP_response_code; auto.
  - unfold searchCEP. rewrite Hv. cbn. intros [= <-]. auto.
Qed.

Lemma getWeatherData_response_code (st : Z) (b : body) (e : CustomError) :
  getWeatherData_response ParseFloat st b = Err e → Code e = 500%Z.
Proof.
  unfold getWeatherData_response.
  destruct (negb (st =? StatusOK)%Z); [by intros [= <-]|].
  destruct b as [|doc]; [by intros [= <-]|].
  destruct (doc ≫= _) as [d|]; [|by intros [= <-]].
  destruct (CurrentCondition d) as [|c ?]; [by intros [= <-]|].
  destruct (ParseFloat (cond_TempC c)); [done|by intros [= <-]].
Qed.

Lemma getWeatherData_code (net : Net) (city state : string)
    (log : list string) (e : CustomError) :
  (run net (getWeatherData ParseFloat city state) log).1 = Err e →
  Code e = 500%Z.
Proof.
  rewrite run_getWeatherData. cbn [fst].
  destruct (net log (wttr_url city state)) as [|st b]; [by intros [= <-]|].
  apply getWeatherData_response_code.
Qed.

(** C5. A request whose method is not GET is answered 405 with the body
    [{"message": "method not allowed"}], whatever its path, and no
    request goes out: the method is looked at before the path, the code
    and the resolvers. *)
Theorem handler_method_not_allowed
    (w : ResponseWriter) (r : Request) (net : Net) (log : list string) :
  Method r ≠ "GET" →
  Status w = None →
  run net (weatherByCEPHandler ParseFloat w r) log
  = ({| Header := <["Content-Type" := "application/json"]> (Header w);
        Status := Some 405%Z;
        Written := Written w
                   ++ [[("message", VString "method not allowed")]] |},
     log).
Proof.
  intros Hm Hw. unfold weatherByCEPHandler, MethodGet.
  apply String.eqb_neq in Hm. rewrite Hm. cbn [negb run].
  by rewrite respond_error_fresh.
Qed.

(** X20. What every answer of the handler to a fresh writer looks like: the
    JSON content type, and either a failure code with a message object,
    or 200 with the temperature object, or 200 with nothing written
    because the encoder refused the record. *)
Lemma handler_response_shape (r : Request) (net : Net) (log : list string) :
  let w' := (run net (weatherByCEPHandler ParseFloat NewRecorder r) log).1 in
  json_content_type w'
  ∧ ((∃ code, Status w' = Some code ∧ failure_code code ∧ is_error_body w')
     ∨ (Status w' = Some 200%Z ∧ is_temperature_body w')
     ∨ (Status w' = Some 200%Z ∧ Written w' = [])).
Proof.
  assert (Hfail : ∀ code msg,
    failure_code code →
    let w' := respond_error code msg NewRecorder in
    json_content_type w'
    ∧ ((∃ code, Status w' = Some code ∧ failure_code code ∧ is_error_body w')
       ∨ (Status w' = Some 200%Z ∧ is_temperature_body w')
       ∨ (Status w' = Some 200%Z ∧ Written w' = []))).
  { intros code msg Hc. rewrite respond_error_fresh by done. cbn.
    split; [apply lookup_insert_eq|].
    left. exists code. split; [done|]. split; [done|]. by exists msg. }
  unfold weatherByCEPHandler, failure_code in *.
  destruct (negb (Method r =? MethodGet)%string); [apply Hfail; auto|].
  destruct (negb (strings.HasPrefix _ _)); [apply Hfail; auto|].
  destruct (_ =? "")%string; [apply Hfail; auto|].
  rewrite run_bind.
  destruct (run net (searchCEP _ _) log).1 as [d|e] eqn:Hs.
  - rewrite run_bind.
    destruct (run net (getWeatherData _ _ _) _).1 as [t|e] eqn:Hw.
    + cbn [run fst]. unfold Encode, marshal_WeatherData.
      destruct (_ || _ || _); cbn.
      * split; [apply lookup_insert_eq|]. auto.
      * split; [apply lookup_insert_eq|]. right. left.
        split; [done|]. by exists (TempC t), (TempF t), (TempK t).
    + apply getWeatherData_code in Hw. apply Hfail. auto.
  - apply searchCEP_code in Hs. apply Hfail. tauto.
Qed.

(** C8, at the failing input. ViaCEP resolves the code and wttr.in
    reports a Celsius string that parses to NaN: the handler answers 200
    with the JSON content type and an empty body, which is not a JSON
    object. *)
Theorem handler_empty_body_on_nan
    (net : Net) (cep : string) (log : list string)
    (location weather : json) (cepData : CEPData)
    (first : condition) (rest : list condition) :
  isValidCEP cep = true →
  net log (viacep_https cep) = Response 200 (Bytes (Some location)) →
  json_decode.Unmarshal_CEPData ParseFloat location = Some cepData →
  Erro cepData = Nil →
  net (log ++ [viacep_https cep]) (wttr_url (Localidade cepData) (UF cepData))
    = Response 200 (Bytes (Some weather)) →
  json_decode.Unmarshal_wttr weather
    = Some {| CurrentCondition := first :: rest |} →
  ParseFloat (cond_TempC first) = Some nan →
  let r := {| Method := "GET"; Path := "/weatherbycep/" +:+ cep |} in
  let w' := (run net (weatherByCEPHandler ParseFloat NewRecorder r) log).1 in
  Status w' = Some 200%Z ∧ json_content_type w' ∧ Written w' = []
  ∧ ¬ is_temperature_body w' ∧ ¬ is_error_body w'.
Proof.
  intros Hv Hn1 Hd1 He Hn2 Hd2 Hpf r w'.
  assert (Hcep : cep ≠ "").
  { intros ->. done. }
  assert (Hw' : w' = {| Header := {["Content-Type" := "application/json"]};
                        Status := Some 200%Z; Written := [] |}).
  { subst w' r. unfold weatherByCEPHandler. cbn [Method Path].
    rewrite HasPrefix_app, TrimPrefix_app.
    change (negb ("GET" =? MethodGet)%string) with false. cbn [negb].
    apply String.eqb_neq in Hcep. rewrite Hcep.
    rewrite run_bind, run_searchCEP, Hn1 by done. cbn [fst snd].
    unfold searchCEP_response at 1. cbn [StatusOK Z.eqb Pos.eqb negb mbind option_bind].
    rewrite Hd1, He. cbn [is_nil negb].
    rewrite run_bind, run_getWeatherData, Hn2. cbn [fst snd].
    unfold getWeatherData_response.
    cbn [StatusOK Z.eqb Pos.eqb negb mbind option_bind].
    rewrite Hd2. cbn [CurrentCondition]. rewrite Hpf.
    cbn [run fst]. done. }
  rewrite Hw'. cbn. unfold json_content_type, is_temperature_body, is_error_body.
  cbn. split; [done|]. split; [done|]. split; [done|].
  split; [by intros (? & ? & ? & ?)|by intros (? & ?)].
Qed.

End HandlerProperties.

(** ** Concrete runs *)

(** C3, counterexample. ViaCEP answers [{"erro": false}]: the sentinel is
    there and falsy, and [searchCEP] reports not-found all the same. *)
Lemma searchCEP_falsy_erro_not_found :
  (∃ cepData,
     json_decode.Unmarshal_CEPData ParseFloat_sample erro_false_doc
       = Some cepData
     ∧ Erro cepData = Bool false
     ∧ truthy (Erro cepData) = false
     ∧ (run (sample_net erro_false_doc JNull)
          (searchCEP ParseFloat_sample "01310100") []).1 = Err not_found)
  ∧ ¬ not_found_iff_truthy.
Proof.
  split.
  - eexists. repeat split.
  - intros H.
    specialize (H ParseFloat_sample (sample_net erro_false_doc JNull)
                  "01310100" [] erro_false_doc _ eq_refl
                  (or_introl eq_refl) eq_refl).
    cbn in H. destruct H as [H _]. by specialize (H eq_refl).
Qed.

Example searchCEP_empty_string_erro_not_found :
  (run (sample_net (JObject [("erro", JString "")]) JNull)
     (searchCEP ParseFloat_sample "01310100") []).1 = Err not_found.
Proof. reflexivity. Qed.

Lemma searchCEP_single_fallback_witness :
  isValidCEP "01310-100" = true
  ∧ (run unreachable_net (searchCEP ParseFloat_sample "01310-100") []).2
    = ["https://viacep.com.br/ws/01310100/json/";
       "http://viacep.com.br/ws/01310100/json/"]
  ∧ (run unreachable_net (searchCEP ParseFloat_sample "01310-100") []).1
    = Err internal_error.
Proof.
  split; [reflexivity|].
  exact (searchCEP_single_fallback ParseFloat_sample unreachable_net
           "01310-100" [] eq_refl).
Defined.

Lemma searchCEP_invalid_no_request_witness :
  isValidCEP "123" = false
  ∧ ∀ (net : Net) (log : list string),
      run net (searchCEP ParseFloat_sample "123") log
      = (Err {| Code := 422; ErrMessage := "invalid zipcode" |}, log).
Proof.
  split; [reflexivity|].
  exact (proj2 (searchCEP_invalid_no_request ParseFloat_sample "123" eq_refl)).
Defined.

Lemma getWeatherData_empty_condition_witness :
  (run (sample_net location_doc no_condition_doc)
     (getWeatherData ParseFloat_sample "Sao Paulo" "SP") []).1
  = Err {| Code := 500; ErrMessage := "weather data not available" |}.
Proof.
  exact (getWeatherData_empty_condition ParseFloat_sample
           (sample_net location_doc no_condition_doc) "Sao Paulo" "SP" []
           no_condition_doc {| CurrentCondition := [] |}
           eq_refl eq_refl eq_refl).
Defined.

Lemma getWeatherData_conversion_witness :
  (run (sample_net location_doc (weather_doc "25"))
     (getWeatherData ParseFloat_sample "Sao Paulo" "SP") []).1
  = Ok {| TempC := 25; TempF := 77; TempK := 0x1.2a26666666666p+8 |}.
Proof.
  exact (getWeatherData_conversion ParseFloat_sample
           (sample_net location_doc (weather_doc "25")) "Sao Paulo" "SP" []
           (weather_doc "25") {| CurrentCondition := [{| cond_TempC := "25" |}] |}
           {| cond_TempC := "25" |} [] 25%float
           eq_refl eq_refl eq_refl eq_refl).
Defined.

Lemma handler_method_not_allowed_witness :
  (run unreachable_net
     (weatherByCEPHandler ParseFloat_sample NewRecorder
        {| Method := "POST"; Path := "/weatherbycep/01310100" |}) [])
  = ({| Header := {["Content-Type" := "application/json"]};
        Status := Some 405%Z;
        Written := [[("message", VString "method not allowed")]] |}, []).
Proof.
  refine (handler_method_not_allowed ParseFloat_sample NewRecorder
            {| Method := "POST"; Path := "/weatherbycep/01310100" |}
            unreachable_net [] _ eq_refl).
  discriminate.
Defined.

Lemma handler_empty_body_on_nan_witness :
  let w' :=
    (run (sample_net location_doc (weather_doc "NaN"))
       (weatherByCEPHandler ParseFloat_sample NewRecorder
          {| Method := "GET"; Path := "/weatherbycep/01310100" |}) []).1 in
  Status w' = Some 200%Z ∧ json_content_type w' ∧ Written w' = []
  ∧ ¬ is_temperature_body w' ∧ ¬ is_error_body w'.
Proof.
  exact (handler_empty_body_on_nan ParseFloat_sample
           (sample_net location_doc (weather_doc "NaN")) "01310100" []
           location_doc (weather_doc "NaN") location_record
           {| cond_TempC := "NaN" |} []
           eq_refl eq_refl eq_refl eq_refl eq_refl eq_refl eq_refl).
Defined.

Example handler_success_run :
  (run (sample_net location_doc (weather_doc "25"))
     (weatherByCEPHandler ParseFloat_sample NewRecorder
        {| Method := "GET"; Path := "/weatherbycep/01310-100" |}) [])
  = ({| Header := {["Content-Type" := "application/json"]};
        Status := Some 200%Z;
        Written := [[("temp_C", VNumber 25); ("temp_F", VNumber 77);
                     ("temp_K", VNumber 0x1.2a26666666666p+8)]] |},
     ["https://viacep.com.br/ws/01310100/json/";
      "https://wttr.in/Sao%2BPaulo%2CSP%2CBrazil?format=j1"]).
Proof. reflexivity. Qed.

(** The tables of [main_test.go]. *)
Example TestIsValidCEP :
  map isValidCEP ["01310100"; "01310-100"; "12345678"; "123"; "1234567890";
                  "abcd1234"; ""; "123-456"; "12.345.678"]
  = [true; true; true; false; false; false; false; false; false].
Proof. reflexivity. Qed.

Example TestFormatCEP :
  map formatCEP ["01310-100"; "01310 100"; "01310100"; "123-45-678";
                 "12 34 56 78"]
  = ["01310100"; "01310100"; "01310100"; "12345678"; "12345678"].
Proof. reflexivity. Qed.

Example TestWeatherByCEPHandler_failures :
  map (fun r =>
         let w := (run (sample_net (JObject [("erro", JBool true)]) JNull)
                     (weatherByCEPHandler ParseFloat_sample NewRecorder r) []).1
         in (Status w, Written w))
    [ {| Method := "GET"; Path := "/weatherbycep/123" |};
      {| Method := "GET"; Path := "/weatherbycep/00000000" |};
      {| Method := "GET"; Path := "/weatherbycep/" |};
      {| Method := "POST"; Path := "/weatherbycep/01310100" |};
      {| Method := "GET"; Path := "/invalid" |} ]
  = [ (Some 422%Z, [[("message", VString "invalid zipcode")]]);
      (Some 404%Z, [[("message", VString "can not find zipcode")]]);
      (Some 400%Z, [[("message", VString "cep parameter is required")]]);
      (Some 405%Z, [[("message", VString "method not allowed")]]);
      (Some 404%Z, [[("message", VString "endpoint not found")]]) ].
Proof. reflexivity. Qed.

Example getWeatherData_url_run :
  (run unreachable_net
     (getWeatherData ParseFloat_sample "Belo Horizonte" "MG") []).2
  = ["https://wttr.in/Belo%2BHorizonte%2CMG%2CBrazil?format=j1"].
Proof. reflexivity. Qed.

(** * Further properties *)

(** ** The validator and the normaliser *)

Lemma no_separator_strip (s : string) :
  no_separator (strip_separators s) = true.
Proof.
  induction s as [|c s IH]; [done|]. cbn [strip_separators].
  fold (is_separator c).
  destruct (is_separator c) eqn:Hc; [done|]. cbn. by rewrite Hc.
Qed.

Lemma strip_no_separator (s : string) :
  no_separator s = true → strip_separators s = s.
Proof.
  induction s as [|c s IH]; [done|]. cbn [no_separator strip_separators].
  fold (is_separator c).
  intros [Hc Hs]%andb_true_iff. apply negb_true_iff in Hc.
  by rewrite Hc, IH.
Qed.

(** X1. What [formatCEP] returns holds no hyphen and no space, and the
    strings it leaves unchanged are exactly those that hold none. *)
Theorem formatCEP_fixed_points (s : string) :
  no_separator (formatCEP s) = true
  ∧ (formatCEP s = s ↔ no_separator s = true).
Proof.
  rewrite formatCEP_strip. split; [apply no_separator_strip|]. split.
  - intros <-. apply no_separator_strip.
  - apply strip_no_separator.
Qed.

Lemma separator_not_digit (c : ascii) :
  is_separator c = true → regexp.is_digit c = false.
Proof.
  unfold is_separator.
  intros [->%Ascii.eqb_eq | ->%Ascii.eqb_eq]%orb_true_iff; reflexivity.
Qed.

Lemma all_digits_strip (s : string) :
  all_digits (strip_separators s) = cep_bytes_only s.
Proof.
  induction s as [|c s IH]; [done|]. cbn [strip_separators cep_bytes_only].
  fold (is_separator c). destruct (is_separator c) eqn:Hc.
  - by rewrite orb_true_r.
  - cbn [all_digits]. by rewrite orb_false_r, IH.
Qed.

Lemma count_digits_strip (s : string) :
  count_digits (strip_separators s) = count_digits s.
Proof.
  induction s as [|c s IH]; [done|]. cbn [strip_separators count_digits].
  fold (is_separator c). destruct (is_separator c) eqn:Hc.
  - by rewrite (separator_not_digit c Hc).
  - cbn [count_digits]. by rewrite IH.
Qed.

Lemma all_digits_length (s : string) :
  all_digits s = true → String.length s = count_digits s.
Proof.
  induction s as [|c s IH]; [done|]. cbn.
  intros [-> Hs]%andb_true_iff. by rewrite IH.
Qed.

(** X2. [isValidCEP] accepts a string exactly when each of its bytes is a
    digit, a hyphen or a space and exactly eight of them are digits:
    separators are accepted in any number and at any place. *)
Theorem isValidCEP_iff_bytes (s : string) :
  isValidCEP s = true ↔ cep_bytes_only s = true ∧ count_digits s = 8%nat.
Proof.
  rewrite isValidCEP_eight_digits. unfold eight_digits.
  rewrite andb_true_iff, Nat.eqb_eq, all_digits_strip.
  split.
  - intros [Hl Hb]. split; [done|].
    rewrite <- count_digits_strip, <- all_digits_length; [done|].
    by rewrite all_digits_strip.
  - intros [Hb Hc]. split; [|done].
    rewrite all_digits_length by (by rewrite all_digits_strip).
    by rewrite count_digits_strip.
Qed.

(** X3. The length test of [isValidCEP] rejects nothing that its pattern
    would accept: the validator is the pattern applied to the normalised
    string. *)
Theorem isValidCEP_is_pattern (s : string) :
  isValidCEP s = regexp.MatchString cep_pattern (formatCEP s).
Proof.
  rewrite isValidCEP_eight_digits, MatchString_cep_pattern.
  by rewrite formatCEP_strip.
Qed.

(** X4. Validity does not depend on the separators: a string and its
    normal form are accepted alike. *)
Theorem isValidCEP_formatCEP (s : string) :
  isValidCEP (formatCEP s) = isValidCEP s.
Proof.
  rewrite !isValidCEP_eight_digits, formatCEP_strip.
  by rewrite strip_separators_idemp.
Qed.

(** ** The location resolver *)

Section LocationResolverMore.

Variable ParseFloat : string -> option float.

(** X5. [searchCEP] does not tell a code from its normal form: both are
    the same computation, with the same requests and the same result. *)
Theorem searchCEP_formatCEP (cep : string) :
  searchCEP ParseFloat (formatCEP cep) = searchCEP ParseFloat cep.
Proof.
  assert (Hf : formatCEP (formatCEP cep) = formatCEP cep).
  { rewrite !formatCEP_strip. apply strip_separators_idemp. }
  unfold searchCEP. cbv zeta. rewrite Hf.
  rewrite (isValidCEP_eight_digits (formatCEP cep)), formatCEP_strip.
  by rewrite strip_separators_idemp, <- isValidCEP_eight_digits.
Qed.

(** X6. For a code the validator accepts, the first URL [searchCEP]
    requests is "https://viacep.com.br/ws/", eight ASCII digits and
    "/json/": nothing but an eight-digit code goes upstream. *)
Theorem searchCEP_requests_eight_digits
    (net : Net) (cep : string) (log : list string) :
  isValidCEP cep = true →
  ∃ digits more,
    String.length digits = 8%nat ∧ all_digits digits = true
    ∧ (run net (searchCEP ParseFloat cep) log).2
      = log ++ ("https://viacep.com.br/ws/" +:+ digits +:+ "/json/") :: more.
Proof.
  intros Hv. pose proof Hv as Hd.
  rewrite isValidCEP_eight_digits in Hd. unfold eight_digits in Hd.
  apply andb_true_iff in Hd as [Hl%Nat.eqb_eq Hd].
  rewrite <- formatCEP_strip in Hl, Hd.
  rewrite run_searchCEP by done. unfold viacep_https.
  destruct (net log _).
  - exists (formatCEP cep), [viacep_http cep]. by cbn.
  - exists (formatCEP cep), []. by cbn.
Qed.

Lemma searchCEP_response_ok (st : Z) (b : body) (d : CEPData) :
  searchCEP_response ParseFloat st b = Ok d ↔
  st = 200%Z ∧ ∃ doc,
    b = Bytes (Some doc)
    ∧ json_decode.Unmarshal_CEPData ParseFloat doc = Some d
    ∧ Erro d = Nil.
Proof.
  unfold searchCEP_response, StatusOK. split.
  - destruct (Z.eqb_spec st 200) as [->|?]; cbn [negb]; [|done].
    destruct b as [|[doc|]]; cbn; try done.
    destruct (json_decode.Unmarshal_CEPData ParseFloat doc) as [d'|] eqn:Hd;
      [|done].
    destruct (Erro d') eqn:He; cbn; try done.
    intros [= <-]. split; [done|]. by exists doc.
  - intros [-> (doc & -> & Hd & He)]. cbn. rewrite Hd, He. done.
Qed.

(** X7. [searchCEP] returns a record exactly when the code is valid and
    ViaCEP's answer, with status 200, decodes to that record with a nil
    [erro]; the record is handed back as decoded. *)
Theorem searchCEP_ok_iff
    (net : Net) (cep : string) (log : list string) (cepData : CEPData) :
  (run net (searchCEP ParseFloat cep) log).1 = Ok cepData ↔
  isValidCEP cep = true
  ∧ ∃ doc, answered net cep log doc
      ∧ json_decode.Unmarshal_CEPData ParseFloat doc = Some cepData
      ∧ Erro cepData = Nil.
Proof.
  destruct (isValidCEP cep) eqn:Hv.
  - rewrite run_searchCEP by done. unfold answered.
    destruct (net log (viacep_https cep)) as [|st b] eqn:H1; cbn [fst].
    + destruct (net (log ++ [viacep_https cep]) (viacep_http cep))
        as [|st b] eqn:H2.
      * split; [done|]. intros [_ (doc & [?|[_ ?]] & _)]; done.
      * rewrite searchCEP_response_ok. split.
        -- intros [-> (doc & -> & Hd & He)]. split; [done|]. exists doc. auto.
        -- intros [_ (doc & [?|[_ [= -> ->]]] & Hd & He)]; [done|].
           split; [done|]. by exists doc.
    + rewrite searchCEP_response_ok. split.
      * intros [-> (doc & -> & Hd & He)]. split; [done|]. exists doc. auto.
      * intros [_ (doc & [[= -> ->]|[? _]] & Hd & He)]; [|done].
        split; [done|]. by exists doc.
  - unfold searchCEP. rewrite Hv. cbn. split; [done|]. by intros [? _].
Qed.

Lemma searchCEP_response_error (st : Z) (b : body) (e : CustomError) :
  searchCEP_response ParseFloat st b = Err e →
  e = not_found ∨ e = internal_error.
Proof.
  unfold searchCEP_response.
  destruct (negb (st =? StatusOK)%Z); [intros [= <-]; auto|].
  destruct b as [|doc]; [intros [= <-]; auto|].
  destruct (doc ≫= _) as [d|]; [|intros [= <-]; auto].
  destruct (negb (is_nil (Erro d))); [intros [= <-]; auto|done].
Qed.

(** X8. The failures of [searchCEP] are three fixed errors: 422 "invalid
    zipcode", 404 "can not find zipcode" and 500 "internal server error";
    the first is returned exactly on the codes the validator rejects. *)
Theorem searchCEP_errors
    (net : Net) (cep : string) (log : list string) :
  (∀ e, (run net (searchCEP ParseFloat cep) log).1 = Err e →
        e = invalid_zipcode ∨ e = not_found ∨ e = internal_error)
  ∧ ((run net (searchCEP ParseFloat cep) log).1 = Err invalid_zipcode
     ↔ isValidCEP cep = false).
Proof.
  destruct (isValidCEP cep) eqn:Hv.
  - rewrite run_searchCEP by done.
    destruct (net log (viacep_https cep)) as [|st b]; cbn [fst].
    + destruct (net _ (viacep_http cep)) as [|st b].
      * split; [intros e [= <-]; auto|done].
      * split; [intros e [?|?]%searchCEP_response_error; auto|].
        split; [|done]. by intros [?|?]%searchCEP_response_error.
    + split; [intros e [?|?]%searchCEP_response_error; auto|].
      split; [|done]. by intros [?|?]%searchCEP_response_error.
  - unfold searchCEP. rewrite Hv. cbn. split; [intros e [= <-]; auto|done].
Qed.

(** X9. A ViaCEP answer whose status is not 200 is an internal error,
    whatever its body says. *)
Theorem searchCEP_bad_status
    (net : Net) (cep : string) (log : list string) (st : Z) (b : body) :
  isValidCEP cep = true →
  net log (viacep_https cep) = Response st b →
  st ≠ 200%Z →
  run net (searchCEP ParseFloat cep) log
  = (Err internal_error, log ++ [viacep_https cep]).
Proof.
  intros Hv Hn Hst. rewrite run_searchCEP, Hn by done.
  unfold searchCEP_response, StatusOK.
  by destruct (Z.eqb_spec st 200).
Qed.

End LocationResolverMore.

(** ** The weather resolver *)

Lemma unreserved_hex_digit (n : nat) :
  (n < 16)%nat → unreserved (hex_digit n) = true.
Proof. intros Hn. do 16 (destruct n as [|n]; [done|]). lia. Qed.

Lemma url_safe_percent_encode (s : string) :
  url_safe (percent_encode s) = true.
Proof.
  induction s as [|c s IH]; [done|]. cbn [percent_encode].
  destruct (unreserved c) eqn:Hc.
  - cbn [url_safe]. by rewrite Hc, IH.
  - assert (nat_of_ascii c < 256)%nat by apply nat_ascii_bounded.
    cbn [url_safe]. rewrite !unreserved_hex_digit, IH; [done| |].
    + apply Nat.mod_upper_bound. lia.
    + apply Nat.Div0.div_lt_upper_bound. lia.
Qed.

Section WeatherResolverMore.

Variable ParseFloat : string -> option float.

(** X10. Whatever the city and the state hold, the one URL the weather
    resolver requests is "https://wttr.in/", a segment of unreserved bytes
    and percent signs only, and "?format=j1": no byte of the city or the
    state can add a path segment or a query parameter. *)
Theorem getWeatherData_url_safe
    (net : Net) (city state : string) (log : list string) :
  ∃ segment,
    url_safe segment = true
    ∧ (run net (getWeatherData ParseFloat city state) log).2
      = log ++ ["https://wttr.in/" +:+ segment +:+ "?format=j1"].
Proof.
  rewrite run_getWeatherData. unfold wttr_url.
  eexists. split; [|reflexivity]. apply url_safe_percent_encode.
Qed.



(** X12. The failures of [getWeatherData] are two fixed errors, both with
    code 500: "internal server error" and "weather data not available". *)
Theorem getWeatherData_errors
    (net : Net) (city state : string) (log : list string) (e : CustomError) :
  (run net (getWeatherData ParseFloat city state) log).1 = Err e →
  e = internal_error ∨ e = weather_unavailable.
Proof.
  rewrite run_getWeatherData. cbn [fst].
  destruct (net log (wttr_url city state)) as [|st b]; [intros [= <-]; auto|].
  unfold getWeatherData_response.
  destruct (negb (st =? StatusOK)%Z); [intros [= <-]; auto|].
  destruct b as [|doc]; [intros [= <-]; auto|].
  destruct (doc ≫= _) as [d|]; [|intros [= <-]; auto].
  destruct (CurrentCondition d) as [|c ?]; [intros [= <-]; auto|].
  destruct (ParseFloat (cond_TempC c)); [done|intros [= <-]; auto].
Qed.


End WeatherResolverMore.

(** ** The handler *)

Section HandlerMore.

Variable ParseFloat : string -> option float.

(** The handler past its three guards: the two resolvers in sequence. *)
Lemma run_handler_resolve
    (w : ResponseWriter) (r : Request) (net : Net) (log : list string)
    (cep : string) :
  Method r = "GET" →
  Path r = "/weatherbycep/" +:+ cep →
  cep ≠ "" →
  run net (weatherByCEPHandler ParseFloat w r) log =
  let s := run net (searchCEP ParseFloat cep) log in
  match s.1 with
  | Err e => (respond_error (Code e) (ErrMessage e) w, s.2)
  | Ok d =>
      let g := run net (getWeatherData ParseFloat (Localidade d) (UF d)) s.2 in
      match g.1 with
      | Err e => (respond_error (Code e) (ErrMessage e) w, g.2)
      | Ok t =>
          (Encode (marshal_WeatherData t)
             (WriteHeader StatusOK
                (Header_Set "Content-Type" "application/json" w)), g.2)
      end
  end.
Proof.
  intros Hm Hp Hc. unfold weatherByCEPHandler. rewrite Hm, Hp.
  rewrite HasPrefix_app, TrimPrefix_app.
  change (negb ("GET" =? MethodGet)%string) with false. cbn [negb].
  apply String.eqb_neq in Hc. rewrite Hc.
  rewrite run_bind. cbv zeta.
  destruct (run net (searchCEP ParseFloat cep) log).1 as [d|e]; [|done].
  rewrite run_bind.
  by destruct (run net (getWeatherData ParseFloat _ _) _).1.
Qed.

(** X14. A GET whose path does not start with "/weatherbycep/" is
    answered 404 "endpoint not found", and no request goes out. *)
Theorem handler_endpoint_not_found
    (w : ResponseWriter) (r : Request) (net : Net) (log : list string) :
  Method r = "GET" →
  strings.HasPrefix (Path r) "/weatherbycep/" = false →
  Status w = None →
  run net (weatherByCEPHandler ParseFloat w r) log
  = (error_response 404 "endpoint not found" w, log).
Proof.
  intros Hm Hp Hw. unfold weatherByCEPHandler. rewrite Hm, Hp.
  change (negb ("GET" =? MethodGet)%string) with false. cbn [negb run].
  by rewrite respond_error_fresh.
Qed.

(** X15. A GET of "/weatherbycep/" with nothing after it is answered 400
    "cep parameter is required", and no request goes out. *)
Theorem handler_missing_code
    (w : ResponseWriter) (r : Request) (net : Net) (log : list string) :
  Method r = "GET" →
  Path r = "/weatherbycep/" →
  Status w = None →
  run net (weatherByCEPHandler ParseFloat w r) log
  = (error_response 400 "cep parameter is required" w, log).
Proof.
  intros Hm Hp Hw. unfold weatherByCEPHandler. rewrite Hm, Hp.
  cbn -[respond_error]. by rewrite respond_error_fresh.
Qed.

(** X16. A GET of "/weatherbycep/" followed by a code that the validator
    rejects is answered 422 "invalid zipcode", and no request goes out. *)
Theorem handler_invalid_code
    (w : ResponseWriter) (r : Request) (net : Net) (log : list string)
    (cep : string) :
  Method r = "GET" →
  Path r = "/weatherbycep/" +:+ cep →
  cep ≠ "" →
  isValidCEP cep = false →
  Status w = None →
  run net (weatherByCEPHandler ParseFloat w r) log
  = (error_response 422 "invalid zipcode" w, log).
Proof.
  intros Hm Hp Hc Hv Hw. rewrite (run_handler_resolve w r net log cep) by done.
  unfold searchCEP. rewrite Hv. cbn -[respond_error].
  by rewrite respond_error_fresh.
Qed.

(** X17. When the location resolver fails, the handler answers with that
    failure's code and message and stops: the weather service is not
    contacted. *)
Theorem handler_location_failure
    (w : ResponseWriter) (r : Request) (net : Net) (log : list string)
    (cep : string) (e : CustomError) :
  Method r = "GET" →
  Path r = "/weatherbycep/" +:+ cep →
  cep ≠ "" →
  Status w = None →
  (run net (searchCEP ParseFloat cep) log).1 = Err e →
  run net (weatherByCEPHandler ParseFloat w r) log
  = (error_response (Code e) (ErrMessage e) w,
     (run net (searchCEP ParseFloat cep) log).2).
Proof.
  intros Hm Hp Hc Hw He. rewrite (run_handler_resolve w r net log cep) by done.
  cbv zeta. rewrite He. by rewrite respond_error_fresh.
Qed.

(** X18. When the location is found and the weather resolver fails, the
    handler answers with the weather failure's code and message. *)
Theorem handler_weather_failure
    (w : ResponseWriter) (r : Request) (net : Net) (log : list string)
    (cep : string) (d : CEPData) (e : CustomError) :
  Method r = "GET" →
  Path r = "/weatherbycep/" +:+ cep →
  cep ≠ "" →
  Status w = None →
  (run net (searchCEP ParseFloat cep) log).1 = Ok d →
  (run net (getWeatherData ParseFloat (Localidade d) (UF d))
     (run net (searchCEP ParseFloat cep) log).2).1 = Err e →
  (run net (weatherByCEPHandler ParseFloat w r) log).1
  = error_response (Code e) (ErrMessage e) w.
Proof.
  intros Hm Hp Hc Hw Hd He. rewrite (run_handler_resolve w r net log cep) by done.
  cbv zeta. rewrite Hd, He. by rewrite respond_error_fresh.
Qed.

(** X19. When both resolvers succeed and the three temperatures are
    finite, the handler answers 200 with the JSON content type and the
    record as its body, after the location requests and one weather
    request for the city and state of the record found. *)
Theorem handler_success
    (w : ResponseWriter) (r : Request) (net : Net) (log : list string)
    (cep : string) (d : CEPData) (t : WeatherData) :
  Method r = "GET" →
  Path r = "/weatherbycep/" +:+ cep →
  cep ≠ "" →
  Status w = None →
  (run net (searchCEP ParseFloat cep) log).1 = Ok d →
  (run net (getWeatherData ParseFloat (Localidade d) (UF d))
     (run net (searchCEP ParseFloat cep) log).2).1 = Ok t →
  finite_temperatures t = true →
  run net (weatherByCEPHandler ParseFloat w r) log
  = (temperature_response t w,
     (run net (searchCEP ParseFloat cep) log).2
     ++ [wttr_url (Localidade d) (UF d)]).
Proof.
  intros Hm Hp Hc Hw Hd Ht Hf.
  rewrite (run_handler_resolve w r net log cep) by done.
  cbv zeta. rewrite Hd, Ht. rewrite run_getWeatherData. cbn [snd].
  unfold marshal_WeatherData. unfold finite_temperatures in Hf.
  apply negb_true_iff in Hf. rewrite Hf.
  unfold Encode, Write, WriteHeader, Header_Set, temperature_response.
  cbn. by rewrite Hw.
Qed.

(** X21. The handler sends a request only for a GET of "/weatherbycep/"
    followed by a code that the validator accepts. *)
Theorem handler_requests_need_valid_code
    (w : ResponseWriter) (r : Request) (net : Net) (log : list string) :
  (run net (weatherByCEPHandler ParseFloat w r) log).2 ≠ log →
  Method r = "GET"
  ∧ strings.HasPrefix (Path r) "/weatherbycep/" = true
  ∧ isValidCEP (strings.TrimPrefix (Path r) "/weatherbycep/") = true.
Proof.
  unfold weatherByCEPHandler, MethodGet.
  destruct (String.eqb_spec (Method r) "GET") as [Hm|?]; cbn [negb]; [|done].
  destruct (strings.HasPrefix (Path r) "/weatherbycep/"); cbn [negb]; [|done].
  destruct (_ =? "")%string; [done|].
  destruct (isValidCEP (strings.TrimPrefix _ _)) eqn:Hv; [done|].
  rewrite run_bind. unfold searchCEP at 1 2. rewrite Hv. by cbn.
Qed.

(** X22. The handler sends at most three requests. *)
Theorem handler_at_most_three_requests
    (w : ResponseWriter) (r : Request) (net : Net) (log : list string) :
  ∃ requests,
    (run net (weatherByCEPHandler ParseFloat w r) log).2 = log ++ requests
    ∧ (length requests ≤ 3)%nat.
Proof.
  assert (H0 : ∃ requests, log = log ++ requests ∧ (length requests ≤ 3)%nat).
  { exists []. rewrite app_nil_r. split; [done|cbn; lia]. }
  unfold weatherByCEPHandler.
  destruct (negb (Method r =? MethodGet)%string); [done|].
  destruct (negb (strings.HasPrefix _ _)); [done|].
  destruct (_ =? "")%string; [done|].
  set (cep := strings.TrimPrefix _ _).
  rewrite run_bind.
  assert (Hs : ∃ reqs, (run net (searchCEP ParseFloat cep) log).2 = log ++ reqs
                       ∧ (length reqs ≤ 2)%nat
                       ∧ (reqs = [] →
                          ∃ e, (run net (searchCEP ParseFloat cep) log).1 = Err e)).
  { destruct (isValidCEP cep) eqn:Hv.
    - rewrite run_searchCEP by done.
      destruct (net log (viacep_https cep)).
      + exists [viacep_https cep; viacep_http cep]. cbn. split; [done|].
        split; [lia|done].
      + exists [viacep_https cep]. cbn. split; [done|]. split; [lia|done].
    - unfold searchCEP. rewrite Hv. exists []. cbn. rewrite app_nil_r.
      split; [done|]. split; [lia|]. eauto. }
  destruct Hs as (reqs & Hl & Hn & _).
  destruct (run net (searchCEP ParseFloat cep) log).1 as [d|e].
  - rewrite run_bind, run_getWeatherData. cbn [fst snd]. rewrite Hl.
    exists (reqs ++ [wttr_url (Localidade d) (UF d)]).
    split.
    + destruct (match net _ _ with TransportError => _ | _ => _ end);
        cbn [run snd]; by rewrite app_assoc.
    + rewrite length_app. cbn. lia.
  - cbn [run snd]. exists reqs. split; [done|lia].
Qed.


End HandlerMore.

(** ** Concrete runs of the further properties *)

Lemma searchCEP_requests_eight_digits_witness :
  isValidCEP "01310-100" = true
  ∧ ∃ digits more,
      String.length digits = 8%nat ∧ all_digits digits = true
      ∧ (run unreachable_net (searchCEP ParseFloat_sample "01310-100") []).2
        = [] ++ ("https://viacep.com.br/ws/" +:+ digits +:+ "/json/") :: more.
Proof.
  split; [reflexivity|].
  exact (searchCEP_requests_eight_digits ParseFloat_sample unreachable_net
           "01310-100" [] eq_refl).
Defined.

Lemma searchCEP_bad_status_witness :
  run (status_net 503) (searchCEP ParseFloat_sample "01310100") []
  = (Err internal_error, ["https://viacep.com.br/ws/01310100/json/"]).
Proof.
  refine (searchCEP_bad_status ParseFloat_sample (status_net 503) "01310100"
            [] 503 ReadError eq_refl eq_refl _).
  discriminate.
Defined.

Lemma getWeatherData_errors_witness :
  (run unreachable_net (getWeatherData ParseFloat_sample "Sao Paulo" "SP") []).1
    = Err internal_error
  ∧ (internal_error = internal_error ∨ internal_error = weather_unavailable).
Proof.
  split; [reflexivity|].
  exact (getWeatherData_errors ParseFloat_sample unreachable_net
           "Sao Paulo" "SP" [] internal_error eq_refl).
Defined.


Lemma handler_endpoint_not_found_witness :
  run unreachable_net
    (weatherByCEPHandler ParseFloat_sample NewRecorder (GET "/invalid")) []
  = (error_response 404 "endpoint not found" NewRecorder, []).
Proof.
  exact (handler_endpoint_not_found ParseFloat_sample NewRecorder
           (GET "/invalid") unreachable_net [] eq_refl eq_refl eq_refl).
Defined.

Lemma handler_missing_code_witness :
  run unreachable_net
    (weatherByCEPHandler ParseFloat_sample NewRecorder (GET "/weatherbycep/")) []
  = (error_response 400 "cep parameter is required" NewRecorder, []).
Proof.
  exact (handler_missing_code ParseFloat_sample NewRecorder
           (GET "/weatherbycep/") unreachable_net [] eq_refl eq_refl eq_refl).
Defined.

Lemma handler_invalid_code_witness :
  isValidCEP "123" = false
  ∧ run unreachable_net
      (weatherByCEPHandler ParseFloat_sample NewRecorder
         (GET "/weatherbycep/123")) []
    = (error_response 422 "invalid zipcode" NewRecorder, []).
Proof.
  split; [reflexivity|].
  refine (handler_invalid_code ParseFloat_sample NewRecorder
            (GET "/weatherbycep/123") unreachable_net [] "123"
            eq_refl eq_refl _ eq_refl eq_refl).
  discriminate.
Defined.

Lemma handler_location_failure_witness :
  run unreachable_net
    (weatherByCEPHandler ParseFloat_sample NewRecorder
       (GET "/weatherbycep/01310100")) []
  = (error_response 500 "internal server error" NewRecorder,
     ["https://viacep.com.br/ws/01310100/json/";
      "http://viacep.com.br/ws/01310100/json/"]).
Proof.
  refine (handler_location_failure ParseFloat_sample NewRecorder
            (GET "/weatherbycep/01310100") unreachable_net [] "01310100"
            internal_error eq_refl eq_refl _ eq_refl eq_refl).
  discriminate.
Defined.

Lemma handler_weather_failure_witness :
  (run (sample_net location_doc no_condition_doc)
     (weatherByCEPHandler ParseFloat_sample NewRecorder
        (GET "/weatherbycep/01310100")) []).1
  = error_response 500 "weather data not available" NewRecorder.
Proof.
  refine (handler_weather_failure ParseFloat_sample NewRecorder
            (GET "/weatherbycep/01310100")
            (sample_net location_doc no_condition_doc) [] "01310100"
            location_record weather_unavailable
            eq_refl eq_refl _ eq_refl eq_refl eq_refl).
  discriminate.
Defined.

Lemma handler_success_witness :
  run (sample_net location_doc (weather_doc "25"))
    (weatherByCEPHandler ParseFloat_sample NewRecorder
       (GET "/weatherbycep/01310100")) []
  = (temperature_response
       {| TempC := 25; TempF := 77; TempK := 0x1.2a26666666666p+8 |}
       NewRecorder,
     ["https://viacep.com.br/ws/01310100/json/";
      "https://wttr.in/Sao%2BPaulo%2CSP%2CBrazil?format=j1"]).
Proof.
  refine (handler_success ParseFloat_sample NewRecorder
            (GET "/weatherbycep/01310100")
            (sample_net location_doc (weather_doc "25")) [] "01310100"
            location_record
            {| TempC := 25; TempF := 77; TempK := 0x1.2a26666666666p+8 |}
            eq_refl eq_refl _ eq_refl eq_refl eq_refl eq_refl).
  discriminate.
Defined.

Lemma handler_requests_need_valid_code_witness :
  (run (sample_net location_doc (weather_doc "25"))
     (weatherByCEPHandler ParseFloat_sample NewRecorder
        (GET "/weatherbycep/01310-100")) []).2 ≠ []
  ∧ isValidCEP "01310-100" = true.
Proof.
  assert (H : (run (sample_net location_doc (weather_doc "25"))
                 (weatherByCEPHandler ParseFloat_sample NewRecorder
                    (GET "/weatherbycep/01310-100")) []).2 ≠ [])
    by discriminate.
  split; [exact H|].
  exact (proj2 (proj2 (handler_requests_need_valid_code ParseFloat_sample
                         NewRecorder (GET "/weatherbycep/01310-100")
                         (sample_net location_doc (weather_doc "25")) [] H))).
Defined.

